(** * CapstoneHRV: the HRV analysis core ([backend/hrv_analysis.py])

    A shallow embedding of [detect_peaks] and [analyze_hrv], together with
    the parts of the Python and NumPy run time they rely on, and the
    properties of the pipeline: peak detection, inter-beat intervals,
    summary statistics, the insufficient-data failure and offset slicing.

    Numbers are IEEE 754 binary64 values (the dtype of a parsed numeric
    column), carried by Rocq's primitive floats; integers (indices, lengths,
    the start offset) are unbounded, as Python's are. *)

From Stdlib Require Import String ZArith List Bool Lia Sorted.
From Stdlib Require Import Floats.PrimFloat Floats.SpecFloat Floats.FloatOps.
From Stdlib Require Import Floats.FloatAxioms.
From Stdlib Require Uint63.
Import ListNotations.
Local Open Scope Z_scope.

(** ** Python run time *)

Module Py.

(** The exceptions the analysis can meet. [ValueError] carries its
    message; the text of an [IndexError] is not modelled. *)
Inductive exn : Type :=
| ValueError (msg : string)
| IndexError.

(** The outcome of evaluating an expression: a value, or a raised
    exception that aborts the enclosing computation. *)
Inductive result (A : Type) : Type :=
| Ok (a : A)
| Raise (e : exn).

Arguments Ok {A} a.
Arguments Raise {A} e.

Definition bind {A B : Type} (m : result A) (k : A -> result B) : result B :=
  match m with
  | Ok a => k a
  | Raise e => Raise e
  end.

(** [len(a)] *)
Definition len {A : Type} (a : list A) : Z := Z.of_nat (length a).

(** [range(lo, hi)]: empty as soon as [hi <= lo]. *)
Definition range (lo hi : Z) : list Z :=
  map (fun k => lo + Z.of_nat k) (seq 0 (Z.to_nat (hi - lo))).

(** [a[i]] on a sequence: a negative index counts from the end, an index
    outside [-len(a), len(a)) raises [IndexError]. *)
Definition getitem {A : Type} (a : list A) (i : Z) : result A :=
  let j := if i <? 0 then i + len a else i in
  if (0 <=? j) && (j <? len a) then
    match nth_error a (Z.to_nat j) with
    | Some x => Ok x
    | None => Raise IndexError
    end
  else Raise IndexError.

(** [a[start:]]: a negative start counts from the end, and the bound is
    clipped to [0, len(a)]; slicing never raises. *)
Definition slice_from {A : Type} (a : list A) (start : Z) : list A :=
  let n := len a in
  let lo := if start <? 0 then Z.max (start + n) 0 else Z.min start n in
  skipn (Z.to_nat lo) a.

(** [[i for i in it if cond(i)]] *)
Fixpoint filter_comp {A : Type} (cond : A -> result bool) (it : list A)
  : result (list A) :=
  match it with
  | [] => Ok []
  | i :: it' =>
      bind (cond i) (fun c =>
      bind (filter_comp cond it') (fun r =>
      Ok (if c then i :: r else r)))
  end.

(** [[elt(i) for i in it]] *)
Fixpoint map_comp {A B : Type} (elt : A -> result B) (it : list A)
  : result (list B) :=
  match it with
  | [] => Ok []
  | i :: it' =>
      bind (elt i) (fun x =>
      bind (map_comp elt it') (fun r =>
      Ok (x :: r)))
  end.

End Py.

Import Py.

Notation "x <- m ;; k" := (Py.bind m (fun x => k))
  (at level 61, m at next level, right associativity).

(** ** Floating-point comparisons *)

(** [x < y] on binary64 values: false as soon as one side is NaN. *)
Definition flt (x y : float) : bool := PrimFloat.ltb x y.

(** [x > y] on binary64 values. *)
Definition fgt (x y : float) : bool := PrimFloat.ltb y x.

(** ** Peak detector *)

(** The condition of the comprehension,
    [voltage_data[i - 1] < voltage_data[i] > voltage_data[i + 1]]:
    a chained comparison evaluates its operands from left to right and
    stops at the first comparison that is false. *)
Definition peak_condition (voltage_data : list float) (i : Z) : result bool :=
  a <- getitem voltage_data (i - 1) ;;
  b <- getitem voltage_data i ;;
  if flt a b then
    c <- getitem voltage_data (i + 1) ;;
    Ok (fgt b c)
  else Ok false.

Definition detect_peaks (voltage_data : list float) : result (list Z) :=
  filter_comp (peak_condition voltage_data) (range 1 (len voltage_data - 1)).

(** ** NumPy run time *)

Module Np.

(** An element count used as a binary64 operand ([ret / rcount]); counts
    are below 2^63, the range of NumPy's [intp]. *)
Definition of_int (n : Z) : float := PrimFloat.of_uint63 (Uint63.of_Z n).

(** [a - b] on two arrays of the same length, element by element. *)
Definition subtract (a b : list float) : list float :=
  map (fun p => PrimFloat.sub (fst p) (snd p)) (combine a b).

(** [np.diff(a)], which NumPy computes as [a[1:] - a[:-1]]. *)
Definition diff (a : list float) : list float :=
  subtract (tl a) (removelast a).

(** [np.square(a)] *)
Definition square (a : list float) : list float :=
  map (fun x => PrimFloat.mul x x) a.

(** The eight running sums [r[0]], ..., [r[7]] of NumPy's pairwise
    summation. *)
Record lanes : Type := Lanes {
  r0 : float; r1 : float; r2 : float; r3 : float;
  r4 : float; r5 : float; r6 : float; r7 : float
}.

(** The loop over the full groups of eight elements, [r[j] += a[i + j]];
    it stops at the last elements, fewer than eight, and returns them. *)
Fixpoint add_groups (r : lanes) (a : list float) : lanes * list float :=
  match a with
  | x0 :: x1 :: x2 :: x3 :: x4 :: x5 :: x6 :: x7 :: rest =>
      add_groups
        {| r0 := PrimFloat.add (r0 r) x0; r1 := PrimFloat.add (r1 r) x1;
           r2 := PrimFloat.add (r2 r) x2; r3 := PrimFloat.add (r3 r) x3;
           r4 := PrimFloat.add (r4 r) x4; r5 := PrimFloat.add (r5 r) x5;
           r6 := PrimFloat.add (r6 r) x6; r7 := PrimFloat.add (r7 r) x7 |}
        rest
  | _ => (r, a)
  end.

(** The sum of a block of at most 128 elements. Fewer than eight are added
    one after the other, from left to right, to negative zero. From eight
    on, the first eight start the running sums, the further full groups
    of eight are added to them, the running sums are added up as
    [((r0 + r1) + (r2 + r3)) + ((r4 + r5) + (r6 + r7))], and the last
    elements are added to that one after the other. *)
Definition block_sum (a : list float) : float :=
  match a with
  | x0 :: x1 :: x2 :: x3 :: x4 :: x5 :: x6 :: x7 :: rest =>
      let (r, last) := add_groups (Lanes x0 x1 x2 x3 x4 x5 x6 x7) rest in
      let res :=
        PrimFloat.add
          (PrimFloat.add (PrimFloat.add (r0 r) (r1 r))
                         (PrimFloat.add (r2 r) (r3 r)))
          (PrimFloat.add (PrimFloat.add (r4 r) (r5 r))
                         (PrimFloat.add (r6 r) (r7 r))) in
      fold_left PrimFloat.add last res
  | _ => fold_left PrimFloat.add a (-0)%float
  end.

(** NumPy's pairwise summation: at most 128 elements are one block; a
    longer array is cut at [n2 = n / 2 - (n / 2) % 8] and the sums of the
    two parts are added. [fuel] bounds the depth of the halving; the
    length of the array is enough (see [pairwise_sum_split]). *)
Fixpoint pairwise_sum_fuel (fuel : nat) (a : list float) : float :=
  match fuel with
  | S fuel' =>
      if (128 <? length a)%nat then
        let n2 := (length a / 2 - (length a / 2) mod 8)%nat in
        PrimFloat.add (pairwise_sum_fuel fuel' (firstn n2 a))
                      (pairwise_sum_fuel fuel' (skipn n2 a))
      else block_sum a
  | O => block_sum a
  end.

Definition pairwise_sum (a : list float) : float :=
  pairwise_sum_fuel (length a) a.

(** [np.add.reduce(a)] on a float64 array: the result starts as the zero
    of addition and the pairwise sum of the elements is added to it. *)
Definition sum (a : list float) : float :=
  PrimFloat.add 0%float (pairwise_sum a).

(** [np.mean(a)]: the sum divided by the number of elements. *)
Definition mean (a : list float) : float :=
  PrimFloat.div (sum a) (of_int (len a)).

(** [np.sqrt(x)] *)
Definition sqrt (x : float) : float := PrimFloat.sqrt x.

(** [np.std(a, ddof=ddof)]: the deviations from the mean, squared and
    summed, divided by [max(len(a) - ddof, 0)], then the square root. *)
Definition std (a : list float) (ddof : Z) : float :=
  let rcount := len a in
  let arrmean := PrimFloat.div (sum a) (of_int rcount) in
  let x := map (fun e => PrimFloat.sub e arrmean) a in
  let x := map (fun e => PrimFloat.mul e e) x in
  let ret := sum x in
  let rcount := Z.max (rcount - ddof) 0 in
  sqrt (PrimFloat.div ret (of_int rcount)).

End Np.

(** ** HRV estimator *)

(** One sample of the recording: a row of the data frame, with its two
    columns ["Time (s)"] and ["Voltage (mV)"]. *)
Record Sample : Type := {
  time_s : float;
  voltage_mV : float
}.

(** The data frame: its rows in order; both columns have one value per row. *)
Definition DataFrame : Type := list Sample.

(** [df["Time (s)"].values] *)
Definition col_time (df : DataFrame) : list float := map time_s df.

(** [df["Voltage (mV)"].values] *)
Definition col_voltage (df : DataFrame) : list float := map voltage_mV df.

(** An entry of [rr_table]. *)
Record RRRow : Type := {
  timestamp : float;
  rr : float
}.

(** The dictionary [hrv_metrics]. *)
Record HrvMetrics : Type := {
  MeanRR : float;
  SDNN : float;
  RMSSD : float
}.

Definition analyze_hrv (df : DataFrame) (start_index : Z)
  : result (HrvMetrics * list RRRow) :=
  let times := slice_from (col_time df) start_index in
  let voltages := slice_from (col_voltage df) start_index in
  peak_indices <- detect_peaks voltages ;;
  r_peaks_time <- map_comp (fun i => getitem times i) peak_indices ;;
  if len r_peaks_time <? 2 then
    Raise (ValueError "Not enough R-peaks to compute HRV.")
  else
    let rr_intervals := Np.diff r_peaks_time in
    rr_table <- map_comp
                  (fun i =>
                     t <- getitem r_peaks_time i ;;
                     d <- getitem rr_intervals i ;;
                     Ok {| timestamp := t; rr := d |})
                  (range 0 (len rr_intervals)) ;;
    let hrv_metrics :=
      {| MeanRR := Np.mean rr_intervals;
         SDNN := Np.std rr_intervals 1;
         RMSSD := Np.sqrt (Np.mean (Np.square (Np.diff rr_intervals))) |} in
    Ok (hrv_metrics, rr_table).

(** The message of the insufficient-data failure, as [analyze_hrv]
    raises it. *)
Definition not_enough_peaks : string := "Not enough R-peaks to compute HRV.".

(** The two halves of [analyze_hrv], named so that statements can speak of
    the beat times: the body up to [r_peaks_time], and the rest of it. *)
Definition beat_times (df : DataFrame) (start_index : Z) : result (list float) :=
  let times := slice_from (col_time df) start_index in
  let voltages := slice_from (col_voltage df) start_index in
  peak_indices <- detect_peaks voltages ;;
  map_comp (fun i => getitem times i) peak_indices.

Definition hrv_of_beats (r_peaks_time : list float)
  : result (HrvMetrics * list RRRow) :=
  if len r_peaks_time <? 2 then
    Raise (ValueError "Not enough R-peaks to compute HRV.")
  else
    let rr_intervals := Np.diff r_peaks_time in
    rr_table <- map_comp
                  (fun i =>
                     t <- getitem r_peaks_time i ;;
                     d <- getitem rr_intervals i ;;
                     Ok {| timestamp := t; rr := d |})
                  (range 0 (len rr_intervals)) ;;
    let hrv_metrics :=
      {| MeanRR := Np.mean rr_intervals;
         SDNN := Np.std rr_intervals 1;
         RMSSD := Np.sqrt (Np.mean (Np.square (Np.diff rr_intervals))) |} in
    Ok (hrv_metrics, rr_table).

(** ** The contracts, in the specification's words *)

Module Spec.

(** [reading[i]], for an index inside the sequence. *)
Definition reading (v : list float) (i : Z) : float :=
  nth (Z.to_nat i) v nan.

(** Index [i] qualifies iff [v[i-1] < v[i]] and [v[i] > v[i+1]]. *)
Definition strict_local_max (v : list float) (i : Z) : Prop :=
  flt (reading v (i - 1)) (reading v i) = true /\
  fgt (reading v i) (reading v (i + 1)) = true.

(** [x[i]] for a position [i] counted from 0. *)
Definition at_ (x : list float) (i : nat) : float := nth i x nan.

(** A count as a number. *)
Definition num (n : nat) : float := Np.of_int (Z.of_nat n).

(** The sum of the terms [f 0], [f 1], ..., [f (n - 1)] in binary64, in
    the order in which the library adds the elements of an array. *)
Definition sigma (n : nat) (f : nat -> float) : float :=
  Np.sum (map f (seq 0 n)).

(** Two results are the same value: identical (NaN included), or equal as
    numbers, which identifies the zeros of either sign. *)
Definition same_value (a b : float) : Prop :=
  a = b \/ PrimFloat.eqb a b = true.


(** The RR interval sequence: the differences of consecutive beat times,
    in order; one entry fewer than there are beats. *)
Definition rr_intervals (beats : list float) : list float :=
  map (fun i => PrimFloat.sub (at_ beats (S i)) (at_ beats i))
      (seq 0 (length beats - 1)).

(** MeanRR: the arithmetic mean of RR. *)
Definition mean (x : list float) : float :=
  PrimFloat.div (sigma (length x) (at_ x)) (num (length x)).



End Spec.

(** The boolean form of the peak rule, as the comprehension evaluates it. *)
Definition peak_at (v : list float) (i : Z) : bool :=
  flt (Spec.reading v (i - 1)) (Spec.reading v i) &&
  fgt (Spec.reading v i) (Spec.reading v (i + 1)).

(** A recording with five beats, at times 0, 1, 2, 3 and 4. *)
Definition five_beats : DataFrame :=
  [ {| time_s := -0.5; voltage_mV := 0 |};
    {| time_s := 0;    voltage_mV := 1 |};
    {| time_s := 0.5;  voltage_mV := 0 |};
    {| time_s := 1;    voltage_mV := 1 |};
    {| time_s := 1.5;  voltage_mV := 0 |};
    {| time_s := 2;    voltage_mV := 1 |};
    {| time_s := 2.5;  voltage_mV := 0 |};
    {| time_s := 3;    voltage_mV := 1 |};
    {| time_s := 3.5;  voltage_mV := 0 |};
    {| time_s := 4;    voltage_mV := 1 |};
    {| time_s := 4.5;  voltage_mV := 0 |} ]%float.

(** The interval table [analyze_hrv] builds from the beat times. *)
Definition rr_table_of (beats : list float) : list RRRow :=
  map (fun i => {| timestamp := Spec.reading beats i;
                   rr := Spec.reading (Np.diff beats) i |})
      (range 0 (len (Np.diff beats))).

(** * Properties *)

(** ** Run-time lemmas *)

(** Settles the integer tests of the goal that linear arithmetic decides. *)
Ltac settle_tests :=
  repeat match goal with
  | |- context [Z.ltb ?a ?b] =>
      first [ replace (Z.ltb a b) with true by (symmetry; apply Z.ltb_lt; lia)
            | replace (Z.ltb a b) with false by (symmetry; apply Z.ltb_ge; lia) ]
  | |- context [Z.leb ?a ?b] =>
      first [ replace (Z.leb a b) with true by (symmetry; apply Z.leb_le; lia)
            | replace (Z.leb a b) with false by (symmetry; apply Z.leb_gt; lia) ]
  | |- context [Z.eqb ?a ?b] =>
      first [ replace (Z.eqb a b) with true by (symmetry; apply Z.eqb_eq; lia)
            | replace (Z.eqb a b) with false by (symmetry; apply Z.eqb_neq; lia) ]
  end.

Lemma len_nonneg {A : Type} (a : list A) : 0 <= len a.
Proof. unfold len. lia. Qed.

Lemma getitem_inside {A : Type} (a : list A) (i : Z) (d : A) :
  0 <= i < len a -> getitem a i = Ok (nth (Z.to_nat i) a d).
Proof.
  intros Hi. unfold getitem. settle_tests. cbn [andb].
  assert (Hn : (Z.to_nat i < length a)%nat) by (unfold len in Hi; lia).
  destruct (nth_error a (Z.to_nat i)) as [x|] eqn:E.
  - now rewrite (nth_error_nth _ _ d E).
  - apply nth_error_None in E. lia.
Qed.

Lemma in_range (lo hi i : Z) : In i (range lo hi) <-> lo <= i < hi.
Proof.
  unfold range. rewrite in_map_iff. split.
  - intros [k [<- Hk]]. apply in_seq in Hk. lia.
  - intros Hi. exists (Z.to_nat (i - lo)). split; [lia|].
    apply in_seq. lia.
Qed.

Lemma range_sorted (lo hi : Z) : StronglySorted Z.lt (range lo hi).
Proof.
  unfold range. generalize (Z.to_nat (hi - lo)) as n. generalize 0%nat as s.
  intros s n. revert s.
  induction n as [|n IH]; intros s; cbn [seq map]; constructor.
  - apply IH.
  - apply Forall_forall. intros x Hx. apply in_map_iff in Hx.
    destruct Hx as [k [<- Hk]]. apply in_seq in Hk. lia.
Qed.

Lemma filter_sorted {A : Type} (R : A -> A -> Prop) (p : A -> bool) (l : list A) :
  StronglySorted R l -> StronglySorted R (filter p l).
Proof.
  induction 1 as [|x l Hs IH Hx]; cbn [filter]; [constructor|].
  destruct (p x); [|exact IH].
  constructor; [exact IH|].
  apply Forall_forall. intros y Hy. apply filter_In in Hy.
  rewrite Forall_forall in Hx. now apply Hx.
Qed.

(** A comprehension whose condition never raises is a plain filter. *)
Lemma filter_comp_total {A : Type} (cond : A -> result bool) (p : A -> bool)
      (it : list A) :
  (forall i, In i it -> cond i = Ok (p i)) ->
  filter_comp cond it = Ok (filter p it).
Proof.
  induction it as [|i it IH]; intros H; cbn [filter_comp filter]; [reflexivity|].
  rewrite (H i (or_introl eq_refl)). cbn [bind].
  rewrite IH by (intros j Hj; apply H; now right). cbn [bind].
  now destruct (p i).
Qed.

(** ** Peak detector *)

Lemma peak_at_spec (v : list float) (i : Z) :
  peak_at v i = true <-> Spec.strict_local_max v i.
Proof. unfold peak_at, Spec.strict_local_max. apply andb_true_iff. Qed.

Lemma peak_condition_inside (v : list float) (i : Z) :
  1 <= i < len v - 1 -> peak_condition v i = Ok (peak_at v i).
Proof.
  intros Hi. unfold peak_condition, peak_at, Spec.reading.
  rewrite (getitem_inside v (i - 1) nan) by lia. cbn [bind].
  rewrite (getitem_inside v i nan) by lia. cbn [bind].
  destruct (flt _ _); cbn [andb]; [|reflexivity].
  rewrite (getitem_inside v (i + 1) nan) by lia. reflexivity.
Qed.

Lemma detect_peaks_filter (v : list float) :
  detect_peaks v = Ok (filter (peak_at v) (range 1 (len v - 1))).
Proof.
  unfold detect_peaks. apply filter_comp_total.
  intros i Hi. apply in_range in Hi. now apply peak_condition_inside.
Qed.

Example detect_peaks_example :
  detect_peaks [1; 3; 2; 5; 4; 5; 1]%float = Ok [1; 3; 5].
Proof. reflexivity. Qed.

(** C1: on every sequence of readings [detect_peaks] returns, in strictly
    ascending order, exactly the indices [i] in [1, N-2] at which
    [reading[i-1] < reading[i]] and [reading[i] > reading[i+1]]. *)
Theorem detect_peaks_correct (v : list float) :
  exists peaks,
    detect_peaks v = Ok peaks /\
    StronglySorted Z.lt peaks /\
    forall i, In i peaks <-> 1 <= i <= len v - 2 /\ Spec.strict_local_max v i.
Proof.
  exists (filter (peak_at v) (range 1 (len v - 1))).
  split; [apply detect_peaks_filter|]. split.
  - apply filter_sorted, range_sorted.
  - intros i. rewrite filter_In, in_range, peak_at_spec.
    split; intros [H1 H2]; (split; [lia|exact H2]).
Qed.

(** C7: a sequence of length 0, 1 or 2 has no peak, and the detector
    returns the empty list rather than raising. *)
Theorem detect_peaks_short (v : list float) :
  (length v <= 2)%nat -> detect_peaks v = Ok [].
Proof.
  intros Hv. rewrite detect_peaks_filter.
  replace (range 1 (len v - 1)) with (@nil Z); [reflexivity|].
  unfold range, len.
  replace (Z.to_nat (Z.of_nat (length v) - 1 - 1)) with 0%nat by lia.
  reflexivity.
Qed.

Lemma detect_peaks_short_witness :
  (length [1%float; 2%float] <= 2)%nat /\
  detect_peaks [1%float; 2%float] = Ok [].
Proof.
  split; [cbn; lia|].
  apply (detect_peaks_short [1%float; 2%float]). cbn. lia.
Defined.

(** ** Slicing *)

Lemma slice_from_map {A B : Type} (f : A -> B) (a : list A) (s : Z) :
  slice_from (map f a) s = map f (slice_from a s).
Proof.
  unfold slice_from, len. rewrite length_map. now rewrite skipn_map.
Qed.

Lemma slice_from_zero {A : Type} (a : list A) : slice_from a 0 = a.
Proof.
  unfold slice_from. cbn [Z.ltb Z.compare].
  pose proof (len_nonneg a).
  replace (Z.to_nat (Z.min 0 (len a))) with 0%nat by lia. reflexivity.
Qed.

Lemma slice_from_nonneg {A : Type} (a : list A) (s : Z) :
  0 <= s -> slice_from a s = skipn (Z.to_nat s) a.
Proof.
  intros Hs. unfold slice_from. settle_tests.
  destruct (Z.le_gt_cases s (len a)) as [H|H].
  - now rewrite Z.min_l by lia.
  - rewrite Z.min_r by lia. unfold len in *.
    rewrite !skipn_all2 by lia. reflexivity.
Qed.

Lemma slice_from_beyond {A : Type} (a : list A) (s : Z) :
  len a <= s -> slice_from a s = [].
Proof.
  intros Hs. pose proof (len_nonneg a).
  rewrite slice_from_nonneg by lia.
  apply skipn_all2. unfold len in Hs. lia.
Qed.

Lemma slice_from_negative {A : Type} (a : list A) (s : Z) :
  s < 0 -> - s <= len a -> slice_from a s = slice_from a (len a + s).
Proof.
  intros Hs Hl. unfold slice_from. settle_tests.
  f_equal. lia.
Qed.

(** ** Comprehensions *)

(** A comprehension whose element expression never raises is a plain map. *)
Lemma map_comp_total {A B : Type} (elt : A -> result B) (f : A -> B)
      (it : list A) :
  (forall i, In i it -> elt i = Ok (f i)) ->
  map_comp elt it = Ok (map f it).
Proof.
  induction it as [|i it IH]; intros H; cbn [map_comp map]; [reflexivity|].
  rewrite (H i (or_introl eq_refl)). cbn [bind].
  rewrite IH by (intros j Hj; apply H; now right). reflexivity.
Qed.

(** ** From the samples to the beat times *)

Lemma analyze_hrv_split (df : DataFrame) (s : Z) :
  analyze_hrv df s = (beats <- beat_times df s ;; hrv_of_beats beats).
Proof.
  unfold analyze_hrv, beat_times, hrv_of_beats.
  destruct (detect_peaks _) as [peaks|e]; cbn [bind]; [|reflexivity].
  destruct (map_comp _ peaks) as [beats|e]; cbn [bind]; reflexivity.
Qed.

Lemma analyze_hrv_beats (df : DataFrame) (s : Z) (beats : list float) :
  beat_times df s = Ok beats -> analyze_hrv df s = hrv_of_beats beats.
Proof. intros Hb. now rewrite analyze_hrv_split, Hb. Qed.

Lemma columns_same_length (df : DataFrame) (s : Z) :
  len (slice_from (col_time df) s) = len (slice_from (col_voltage df) s).
Proof.
  unfold col_time, col_voltage. rewrite !slice_from_map.
  unfold len. now rewrite !length_map.
Qed.

(** The beat times are always defined: every detected index is an index of
    the time column too. *)
Lemma beat_times_value (df : DataFrame) (s : Z) :
  beat_times df s =
  Ok (map (Spec.reading (slice_from (col_time df) s))
          (filter (peak_at (slice_from (col_voltage df) s))
                  (range 1 (len (slice_from (col_voltage df) s) - 1)))).
Proof.
  unfold beat_times. rewrite detect_peaks_filter. cbn [bind].
  apply map_comp_total. intros i Hi.
  apply filter_In in Hi. destruct Hi as [Hi _]. apply in_range in Hi.
  unfold Spec.reading. apply getitem_inside.
  rewrite columns_same_length. lia.
Qed.

(** ** Successive differences *)

Lemma diff_cons2 (x y : float) (t : list float) :
  Np.diff (x :: y :: t) = PrimFloat.sub y x :: Np.diff (y :: t).
Proof. reflexivity. Qed.

Lemma rr_intervals_cons2 (x y : float) (t : list float) :
  Spec.rr_intervals (x :: y :: t) =
  PrimFloat.sub y x :: Spec.rr_intervals (y :: t).
Proof.
  unfold Spec.rr_intervals. cbn [length Nat.sub].
  rewrite Nat.sub_0_r. cbn [seq map]. f_equal.
  rewrite <- seq_shift, map_map. reflexivity.
Qed.

(** [np.diff] computes the RR interval sequence of the specification. *)
Lemma diff_rr_intervals (a : list float) : Np.diff a = Spec.rr_intervals a.
Proof.
  induction a as [|x [|y t] IH]; [reflexivity|reflexivity|].
  rewrite diff_cons2, rr_intervals_cons2. now rewrite IH.
Qed.

Lemma rr_intervals_length (a : list float) :
  length (Spec.rr_intervals a) = (length a - 1)%nat.
Proof. unfold Spec.rr_intervals. now rewrite length_map, length_seq. Qed.

Lemma rr_intervals_nth (a : list float) (i : nat) :
  (i < length a - 1)%nat ->
  nth i (Spec.rr_intervals a) nan =
  PrimFloat.sub (Spec.at_ a (S i)) (Spec.at_ a i).
Proof.
  intros Hi. unfold Spec.rr_intervals.
  rewrite (nth_indep _ nan (PrimFloat.sub (Spec.at_ a 1) (Spec.at_ a 0)))
    by (now rewrite length_map, length_seq).
  rewrite (map_nth (fun i => PrimFloat.sub (Spec.at_ a (S i)) (Spec.at_ a i))).
  now rewrite seq_nth.
Qed.

(** ** The interval table *)

(** The table the comprehension builds from the beat times [beats]. *)
Lemma rr_table_value (beats : list float) :
  map_comp
    (fun i =>
       t <- getitem beats i ;;
       d <- getitem (Np.diff beats) i ;;
       Ok {| timestamp := t; rr := d |})
    (range 0 (len (Np.diff beats))) =
  Ok (map (fun i => {| timestamp := Spec.reading beats i;
                       rr := Spec.reading (Np.diff beats) i |})
          (range 0 (len (Np.diff beats)))).
Proof.
  apply map_comp_total. intros i Hi. apply in_range in Hi.
  assert (Hl : len (Np.diff beats) <= len beats).
  { rewrite diff_rr_intervals. unfold len. rewrite rr_intervals_length. lia. }
  unfold Spec.reading.
  rewrite (getitem_inside beats i nan) by lia. cbn [bind].
  rewrite (getitem_inside (Np.diff beats) i nan) by lia. reflexivity.
Qed.

Lemma hrv_of_beats_value (beats : list float) :
  (2 <= length beats)%nat ->
  hrv_of_beats beats =
  Ok ({| MeanRR := Np.mean (Np.diff beats);
         SDNN := Np.std (Np.diff beats) 1;
         RMSSD := Np.sqrt (Np.mean (Np.square (Np.diff (Np.diff beats)))) |},
      map (fun i => {| timestamp := Spec.reading beats i;
                       rr := Spec.reading (Np.diff beats) i |})
          (range 0 (len (Np.diff beats)))).
Proof.
  intros Hb. unfold hrv_of_beats, len at 1. settle_tests.
  rewrite rr_table_value. reflexivity.
Qed.

Lemma hrv_of_beats_few (beats : list float) :
  (length beats < 2)%nat ->
  hrv_of_beats beats = Raise (ValueError not_enough_peaks).
Proof.
  intros Hb. unfold hrv_of_beats, len at 1. settle_tests.
  reflexivity.
Qed.

Lemma range_from_zero (n : nat) :
  range 0 (Z.of_nat n) = map Z.of_nat (seq 0 n).
Proof.
  unfold range. rewrite Z.sub_0_r, Nat2Z.id. reflexivity.
Qed.

Lemma table_nth_error (beats : list float) (i : nat) :
  (i < length beats - 1)%nat ->
  nth_error
    (map (fun i => {| timestamp := Spec.reading beats i;
                      rr := Spec.reading (Np.diff beats) i |})
         (range 0 (len (Np.diff beats)))) i =
  Some {| timestamp := Spec.at_ beats i;
          rr := Spec.at_ (Spec.rr_intervals beats) i |}.
Proof.
  intros Hi. unfold len. rewrite diff_rr_intervals, rr_intervals_length.
  rewrite range_from_zero, map_map.
  rewrite nth_error_map.
  rewrite (nth_error_nth' _ 0%nat) by (rewrite length_seq; exact Hi).
  rewrite seq_nth by exact Hi. cbn [option_map Nat.add].
  unfold Spec.reading, Spec.at_. now rewrite Nat2Z.id.
Qed.

Lemma table_length (beats : list float) :
  length
    (map (fun i => {| timestamp := Spec.reading beats i;
                      rr := Spec.reading (Np.diff beats) i |})
         (range 0 (len (Np.diff beats)))) = (length beats - 1)%nat.
Proof.
  unfold len. rewrite diff_rr_intervals, rr_intervals_length.
  now rewrite range_from_zero, !length_map, length_seq.
Qed.

(** ** Sums and the three statistics *)

(** The halving of the pairwise summation ends: any fuel that covers the
    length of the array gives the same sum. *)
Lemma pairwise_fuel_enough (fuel fuel' : nat) (a : list float) :
  (length a <= fuel)%nat -> (length a <= fuel')%nat ->
  Np.pairwise_sum_fuel fuel a = Np.pairwise_sum_fuel fuel' a.
Proof.
  revert fuel' a. induction fuel as [|f IH]; intros fuel' a H H'.
  - destruct a; [|cbn in H; lia]. now destruct fuel'.
  - destruct fuel' as [|f'].
    + destruct a; [|cbn in H'; lia]. reflexivity.
    + cbn [Np.pairwise_sum_fuel].
      destruct (128 <? length a)%nat eqn:E; [|reflexivity].
      apply Nat.ltb_lt in E.
      set (h := (length a / 2)%nat).
      assert (Hh : (2 * h <= length a < 2 * h + 2)%nat).
      { unfold h. pose proof (Nat.div_mod_eq (length a) 2).
        pose proof (Nat.mod_upper_bound (length a) 2). lia. }
      assert (Hm : (h mod 8 < 8)%nat) by (apply Nat.mod_upper_bound; lia).
      f_equal; apply IH; rewrite ?length_firstn, ?length_skipn; lia.
Qed.

Lemma pairwise_sum_block (a : list float) :
  (length a <= 128)%nat -> Np.pairwise_sum a = Np.block_sum a.
Proof.
  intros H. unfold Np.pairwise_sum.
  destruct (length a) as [|n] eqn:E; [reflexivity|].
  cbn [Np.pairwise_sum_fuel]. rewrite E.
  now replace (128 <? S n)%nat with false by (symmetry; apply Nat.ltb_ge; lia).
Qed.

Lemma pairwise_sum_split (a : list float) :
  (128 < length a)%nat ->
  Np.pairwise_sum a =
  PrimFloat.add
    (Np.pairwise_sum
       (firstn (length a / 2 - (length a / 2) mod 8) a))
    (Np.pairwise_sum
       (skipn (length a / 2 - (length a / 2) mod 8) a)).
Proof.
  intros H. unfold Np.pairwise_sum at 1.
  destruct (length a) as [|n] eqn:E; [lia|].
  cbn [Np.pairwise_sum_fuel]. rewrite E.
  replace (128 <? S n)%nat with true by (symmetry; apply Nat.ltb_lt; lia).
  set (k := (S n / 2 - (S n / 2) mod 8)%nat).
  unfold Np.pairwise_sum.
  assert (Hh : (2 * (S n / 2) <= S n)%nat).
  { pose proof (Nat.div_mod_eq (S n) 2). lia. }
  assert (Hm : ((S n / 2) mod 8 < 8)%nat) by (apply Nat.mod_upper_bound; lia).
  assert (Hk : (0 < k <= S n / 2)%nat).
  { unfold k. pose proof (Nat.div_mod_eq (S n) 2).
    pose proof (Nat.mod_upper_bound (S n) 2). lia. }
  f_equal; apply pairwise_fuel_enough;
    rewrite ?length_firstn, ?length_skipn; lia.
Qed.









(** ** Three facts of binary64 arithmetic *)

(** Dividing by one is exact; a value minus itself is zero, or NaN when
    the value is infinite or NaN; and adding a value to zero returns it,
    but for negative zero, which becomes positive. All three are read off
    the specification of the primitive operations. *)

Lemma bounded_cases (m : positive) (e : Z) :
  bounded prec emax m e = true ->
  e <= 971 /\
  (e = -1074 /\ Z.pos (digits2_pos m) <= 53 \/
   -1073 <= e /\ Z.pos (digits2_pos m) = 53).
Proof.
  unfold bounded, canonical_mantissa, fexp, emin, prec, emax. intros H.
  apply andb_true_iff in H. destruct H as [H1 H2].
  apply Z.eqb_eq in H1. apply Z.leb_le in H2. lia.
Qed.

Lemma div_eucl_shiftl (a s d c : Z) :
  0 <= s -> d <> 0 -> 2 ^ s = c * d ->
  Z.div_eucl (Z.shiftl a s) d = (a * c, 0).
Proof.
  intros Hs Hd Hc.
  rewrite Z.shiftl_mul_pow2 by lia. rewrite Hc, Z.mul_assoc.
  pose proof (Z.div_mul (a * c) d Hd) as Hq.
  pose proof (Z.mod_mul (a * c) d Hd) as Hr.
  unfold Z.div, Z.modulo in Hq, Hr.
  destruct (Z.div_eucl _ _) as [q r]. now subst.
Qed.

Lemma div_core_one (m : positive) (e : Z) :
  bounded prec emax m e = true ->
  SFdiv_core_binary prec emax (Z.pos m) e 4503599627370496 (-52) =
  if e =? -1074 then (Z.pos m, e, loc_Exact) else (Z.pos m~0, e - 1, loc_Exact).
Proof.
  intros Hb. apply bounded_cases in Hb. destruct Hb as [He Hc].
  unfold SFdiv_core_binary.
  change (Zdigits2 4503599627370496) with 53.
  change (Zdigits2 (Z.pos m)) with (Z.pos (digits2_pos m)).
  unfold fexp, emin, prec, emax.
  destruct Hc as [[-> Hd]|[He' Hd]].
  - replace (Z.min _ _) with (-1074) by lia.
    cbn -[Z.div_eucl Z.shiftl].
    rewrite (div_eucl_shiftl (Z.pos m) 52 4503599627370496 1)
      by (try reflexivity; lia).
    rewrite Z.mul_1_r. reflexivity.
  - settle_tests.
    replace (Z.min _ _) with (e - 1) by lia.
    replace (e - -52 - (e - 1)) with 53 by lia.
    cbn -[Z.div_eucl Z.shiftl].
    rewrite (div_eucl_shiftl (Z.pos m) 53 4503599627370496 2)
      by (try reflexivity; lia).
    replace (Z.pos m * 2) with (Z.pos m~0) by lia. reflexivity.
Qed.

Lemma shr_fexp_canonical (m : positive) (e : Z) :
  bounded prec emax m e = true ->
  shr_fexp prec emax (Z.pos m) e loc_Exact =
  (Build_shr_record (Z.pos m) false false, e).
Proof.
  intros Hb. unfold shr_fexp.
  unfold bounded, canonical_mantissa in Hb.
  apply andb_true_iff in Hb. destruct Hb as [H1 _]. apply Z.eqb_eq in H1.
  cbn [Zdigits2]. rewrite H1, Z.sub_diag. reflexivity.
Qed.

Lemma round_finish (s : bool) (m : positive) (e : Z) :
  bounded prec emax m e = true ->
  (let '(mrs, e') := shr_fexp prec emax (Z.pos m) e loc_Exact in
   match shr_m mrs with
   | 0 => S754_zero s
   | Z.pos m' =>
       if e' <=? emax - prec then S754_finite s m' e' else S754_infinity s
   | Z.neg _ => S754_nan
   end) = S754_finite s m e.
Proof.
  intros Hb. rewrite (shr_fexp_canonical m e Hb). cbn [shr_m].
  unfold bounded in Hb. apply andb_true_iff in Hb. destruct Hb as [_ H2].
  now rewrite H2.
Qed.

Lemma round_exact (s : bool) (m : positive) (e : Z) :
  bounded prec emax m e = true ->
  binary_round_aux prec emax s (Z.pos m) e loc_Exact = S754_finite s m e.
Proof.
  intros Hb. unfold binary_round_aux.
  rewrite (shr_fexp_canonical m e Hb).
  cbn [shr_m loc_of_shr_record round_nearest_even].
  now apply round_finish.
Qed.

Lemma round_exact_double (s : bool) (m : positive) (e : Z) :
  bounded prec emax m e = true -> e <> -1074 ->
  binary_round_aux prec emax s (Z.pos m~0) (e - 1) loc_Exact = S754_finite s m e.
Proof.
  intros Hb Hne.
  assert (Hs : shr_fexp prec emax (Z.pos m~0) (e - 1) loc_Exact =
               (Build_shr_record (Z.pos m) false false, e)).
  { apply bounded_cases in Hb. destruct Hb as [He [[? ?]|[He' Hd]]]; [lia|].
    unfold shr_fexp. cbn [Zdigits2 digits2_pos].
    rewrite Pos2Z.inj_succ, Hd. unfold fexp, emin, prec, emax.
    replace (Z.max _ _ - (e - 1)) with 1 by lia.
    cbn. f_equal. lia. }
  unfold binary_round_aux. rewrite Hs.
  cbn [shr_m loc_of_shr_record round_nearest_even].
  now apply round_finish.
Qed.

Lemma SFdiv_one (s : bool) (m : positive) (e : Z) :
  bounded prec emax m e = true ->
  SF64div (S754_finite s m e) (S754_finite false 4503599627370496 (-52)) =
  S754_finite s m e.
Proof.
  intros Hb. unfold SF64div, SFdiv. rewrite (div_core_one m e Hb).
  rewrite xorb_false_r.
  destruct (e =? -1074) eqn:E.
  - now apply round_exact.
  - apply round_exact_double; [exact Hb|]. now apply Z.eqb_neq.
Qed.

Lemma div_one (x : float) : (x / 1)%float = x.
Proof.
  apply Prim2SF_inj. rewrite div_spec.
  change (Prim2SF 1%float) with (S754_finite false 4503599627370496 (-52)).
  pose proof (Prim2SF_valid x) as Hv.
  destruct (Prim2SF x) as [s|s| |s m e].
  - cbn. now rewrite xorb_false_r.
  - cbn. now rewrite xorb_false_r.
  - reflexivity.
  - now apply SFdiv_one.
Qed.

Lemma sub_self (x : float) : (x - x)%float = 0%float \/ (x - x)%float = nan.
Proof.
  assert (H : Prim2SF (x - x)%float = S754_zero false \/
              Prim2SF (x - x)%float = S754_nan).
  { rewrite sub_spec. destruct (Prim2SF x) as [s|s| |s m e].
    - left. now destruct s.
    - right. now destruct s.
    - now right.
    - left. unfold SF64sub, SFsub. now rewrite Z.sub_diag. }
  destruct H as [H|H]; [left|right]; apply Prim2SF_inj; rewrite H; reflexivity.
Qed.

Lemma zero_add (x : float) :
  (0 + x)%float = x \/ x = (-0)%float /\ (0 + x)%float = 0%float.
Proof.
  assert (H : Prim2SF (0 + x)%float = Prim2SF x \/
              Prim2SF x = S754_zero true /\
              Prim2SF (0 + x)%float = S754_zero false).
  { rewrite add_spec.
    change (Prim2SF 0%float) with (S754_zero false).
    destruct (Prim2SF x) as [[|]|s| |s m e]; cbn; auto. }
  destruct H as [H|[H1 H2]].
  - left. now apply Prim2SF_inj.
  - right. split; apply Prim2SF_inj; [rewrite H1|rewrite H2]; reflexivity.
Qed.

Lemma neg_zero_add (x : float) : ((-0) + x)%float = x.
Proof.
  apply Prim2SF_inj. rewrite add_spec.
  change (Prim2SF (-0)%float) with (S754_zero true).
  now destruct (Prim2SF x) as [[|]|s| |s m e].
Qed.

(** The sum of an array of one element. *)
Lemma sum_single (x : float) : Np.sum [x] = (0 + x)%float.
Proof.
  unfold Np.sum, Np.pairwise_sum.
  cbn [length Np.pairwise_sum_fuel Nat.ltb Nat.leb Np.block_sum fold_left].
  now rewrite neg_zero_add.
Qed.

(** The statistics of a single interval. *)
Lemma single_interval_stats (x : float) :
  Spec.same_value (Np.mean [x]) x /\
  Np.std [x] 1 = nan /\
  Np.sqrt (Np.mean (Np.square (Np.diff [x]))) = nan.
Proof.
  assert (Hm : Np.mean [x] = (0 + x)%float).
  { unfold Np.mean. rewrite sum_single. apply div_one. }
  split; [|split; [|reflexivity]].
  - rewrite Hm. destruct (zero_add x) as [E|[E1 E2]].
    + left. exact E.
    + right. rewrite E2, E1. reflexivity.
  - unfold Np.std. fold (Np.mean [x]). rewrite Hm.
    cbn [map]. rewrite sum_single.
    destruct (zero_add x) as [E|[E1 E2]].
    + rewrite E. destruct (sub_self x) as [D|D]; rewrite D; reflexivity.
    + rewrite E2, E1. reflexivity.
Qed.

(** ** HRV estimator *)

Example analyze_five_beats :
  analyze_hrv five_beats 0 =
  Ok ({| MeanRR := 1; SDNN := 0; RMSSD := 0 |},
      [ {| timestamp := 0; rr := 1 |}; {| timestamp := 1; rr := 1 |};
        {| timestamp := 2; rr := 1 |}; {| timestamp := 3; rr := 1 |} ])%float.
Proof. vm_compute. reflexivity. Qed.

(** Nine beats, at 0.1, 0.95, 1.9, 2.45, 3.4, 4.35, 5.4, 6.25 and 7.3 s:
    the eight intervals are added in the eight running sums of the
    pairwise summation, and MeanRR is 0.8999999999999999, SDNN
    0.1603567451474546 and RMSSD 0.24494897427831783. *)
Example nine_beats_metrics :
  exists tbl,
    hrv_of_beats
      [0x1.999999999999ap-4; 0x1.e666666666666p-1; 0x1.e666666666666p+0;
       0x1.399999999999ap+1; 0x1.b333333333333p+1; 0x1.1666666666666p+2;
       0x1.599999999999ap+2; 0x1.9p+2; 0x1.d333333333333p+2]%float =
    Ok ({| MeanRR := 0x1.cccccccccccccp-1;
           SDNN := 0x1.48691e00cf831p-3;
           RMSSD := 0x1.f5a7cecdb684bp-3 |}%float, tbl).
Proof. eexists. vm_compute. reflexivity. Qed.






(** C4: with k >= 2 beat times the interval table has k - 1 rows; row i
    carries the i-th beat time and the difference
    [beats[i+1] - beats[i]] of that beat and the next, in the order of the
    beats. *)
Theorem interval_table_rows (df : DataFrame) (s : Z) (beats : list float) :
  beat_times df s = Ok beats ->
  (2 <= length beats)%nat ->
  exists m tbl,
    analyze_hrv df s = Ok (m, tbl) /\
    length tbl = (length beats - 1)%nat /\
    forall i, (i < length beats - 1)%nat ->
      nth_error tbl i =
      Some {| timestamp := Spec.at_ beats i;
              rr := PrimFloat.sub (Spec.at_ beats (S i)) (Spec.at_ beats i) |}.
Proof.
  intros Hb Hl.
  rewrite (analyze_hrv_beats df s beats Hb), (hrv_of_beats_value beats Hl).
  eexists. eexists. split; [reflexivity|]. split; [apply table_length|].
  intros i Hi. rewrite (table_nth_error beats i Hi).
  unfold Spec.at_ at 2. now rewrite rr_intervals_nth.
Qed.

Lemma interval_table_rows_witness :
  exists m tbl,
    analyze_hrv five_beats 0 = Ok (m, tbl) /\
    length tbl = 4%nat /\
    forall i, (i < 4)%nat ->
      nth_error tbl i =
      Some {| timestamp := Spec.at_ [0; 1; 2; 3; 4]%float i;
              rr := PrimFloat.sub (Spec.at_ [0; 1; 2; 3; 4]%float (S i))
                                  (Spec.at_ [0; 1; 2; 3; 4]%float i) |}.
Proof.
  apply (interval_table_rows five_beats 0 [0; 1; 2; 3; 4]%float);
    [vm_compute; reflexivity | cbn; lia].
Defined.

(** C5: a start offset [s] acts exactly as slicing the first [s] samples
    off the recording beforehand: the peak indices and the whole result
    (metrics and table, or the failure) are those of the sliced recording
    at offset 0, and two recordings that agree from sample [s] on give the
    same result. *)
Theorem offset_is_preslicing (df : DataFrame) (s : Z) :
  0 <= s ->
  detect_peaks (slice_from (col_voltage df) s) =
  detect_peaks (slice_from (col_voltage (skipn (Z.to_nat s) df)) 0) /\
  beat_times df s = beat_times (skipn (Z.to_nat s) df) 0 /\
  analyze_hrv df s = analyze_hrv (skipn (Z.to_nat s) df) 0 /\
  forall df', skipn (Z.to_nat s) df' = skipn (Z.to_nat s) df ->
              analyze_hrv df' s = analyze_hrv df s.
Proof.
  intros Hs.
  assert (Hv : forall d, slice_from (col_voltage d) s =
                         slice_from (col_voltage (skipn (Z.to_nat s) d)) 0).
  { intros d. rewrite slice_from_zero. unfold col_voltage.
    now rewrite slice_from_map, slice_from_nonneg. }
  assert (Ht : forall d, slice_from (col_time d) s =
                         slice_from (col_time (skipn (Z.to_nat s) d)) 0).
  { intros d. rewrite slice_from_zero. unfold col_time.
    now rewrite slice_from_map, slice_from_nonneg. }
  assert (Ha : forall d, analyze_hrv d s = analyze_hrv (skipn (Z.to_nat s) d) 0).
  { intros d. unfold analyze_hrv. now rewrite (Hv d), (Ht d). }
  split; [now rewrite (Hv df)|]. split.
  - unfold beat_times. now rewrite (Hv df), (Ht df).
  - split; [apply Ha|]. intros df' E. now rewrite (Ha df'), (Ha df), E.
Qed.

Lemma offset_is_preslicing_witness :
  0 <= 4 /\
  analyze_hrv five_beats 4 = analyze_hrv (skipn 4 five_beats) 0.
Proof.
  assert (H : 0 <= 4) by lia.
  split; [exact H|].
  exact (proj1 (proj2 (proj2 (offset_is_preslicing five_beats 4 H)))).
Defined.

(** C6 as the specification words it: the table has an entry for each
    index of the half-open range [0, len(RR) - 1), so len(RR) - 1 entries.
    With the five beats above RR has four entries and so has the table:
    the comprehension runs over [range(len(rr_intervals))], and the last
    interval, at index len(RR) - 1, is recorded too. *)
Lemma interval_table_not_one_short :
  exists m tbl,
    beat_times five_beats 0 = Ok [0; 1; 2; 3; 4]%float /\
    analyze_hrv five_beats 0 = Ok (m, tbl) /\
    length (Np.diff [0; 1; 2; 3; 4]%float) = 4%nat /\
    length tbl <> (length (Np.diff [0; 1; 2; 3; 4]%float) - 1)%nat /\
    nth_error tbl (length (Np.diff [0; 1; 2; 3; 4]%float) - 1) =
    Some {| timestamp := 3%float; rr := 1%float |}.
Proof.
  eexists. eexists.
  split; [vm_compute; reflexivity|].
  split; [vm_compute; reflexivity|].
  split; [reflexivity|].
  split; [cbn; discriminate | reflexivity].
Qed.

(** C6 (amended): the interval table records
    [{ timestamp: beat_times[k], rr: RR[k] }] for each index k of the
    half-open range [0, len(RR)); it has len(RR) entries. *)
Theorem interval_table_built (df : DataFrame) (s : Z) (beats : list float) :
  beat_times df s = Ok beats ->
  (2 <= length beats)%nat ->
  exists m tbl,
    analyze_hrv df s = Ok (m, tbl) /\
    length tbl = length (Np.diff beats) /\
    forall k, (k < length (Np.diff beats))%nat ->
      nth_error tbl k =
      Some {| timestamp := Spec.at_ beats k;
              rr := Spec.at_ (Np.diff beats) k |}.
Proof.
  intros Hb Hl.
  rewrite (analyze_hrv_beats df s beats Hb), (hrv_of_beats_value beats Hl).
  eexists. eexists. split; [reflexivity|].
  assert (Hd : length (Np.diff beats) = (length beats - 1)%nat)
    by (rewrite diff_rr_intervals; apply rr_intervals_length).
  split; [rewrite table_length; now symmetry|].
  intros k Hk. rewrite Hd in Hk.
  rewrite (table_nth_error beats k Hk). now rewrite diff_rr_intervals.
Qed.

Lemma interval_table_built_witness :
  exists m tbl,
    analyze_hrv five_beats 0 = Ok (m, tbl) /\
    length tbl = length (Np.diff [0; 1; 2; 3; 4]%float) /\
    forall k, (k < length (Np.diff [0; 1; 2; 3; 4]%float))%nat ->
      nth_error tbl k =
      Some {| timestamp := Spec.at_ [0; 1; 2; 3; 4]%float k;
              rr := Spec.at_ (Np.diff [0; 1; 2; 3; 4]%float) k |}.
Proof.
  apply (interval_table_built five_beats 0 [0; 1; 2; 3; 4]%float);
    [vm_compute; reflexivity | cbn; lia].
Defined.

(** C9: a start offset at or beyond the end of the recording raises no
    [IndexError]: both truncated columns are empty, the detector returns
    no peak, and the call fails with the [ValueError] of the
    insufficient-data case, the same failure as any run with fewer than
    two beat times. *)
Theorem offset_beyond_end (df : DataFrame) (s : Z) :
  len df <= s ->
  slice_from (col_time df) s = [] /\
  slice_from (col_voltage df) s = [] /\
  detect_peaks (slice_from (col_voltage df) s) = Ok [] /\
  analyze_hrv df s <> Raise IndexError /\
  analyze_hrv df s = Raise (ValueError not_enough_peaks) /\
  forall df' s' beats',
    beat_times df' s' = Ok beats' -> (length beats' < 2)%nat ->
    analyze_hrv df s = analyze_hrv df' s'.
Proof.
  intros Hs.
  assert (Ht : slice_from (col_time df) s = []).
  { apply slice_from_beyond. unfold col_time, len in *. now rewrite length_map. }
  assert (Hv : slice_from (col_voltage df) s = []).
  { apply slice_from_beyond. unfold col_voltage, len in *. now rewrite length_map. }
  assert (Ha : analyze_hrv df s = Raise (ValueError not_enough_peaks)).
  { unfold analyze_hrv. rewrite Ht, Hv. reflexivity. }
  split; [exact Ht|]. split; [exact Hv|].
  split; [rewrite Hv; reflexivity|].
  split; [rewrite Ha; discriminate|].
  split; [exact Ha|].
  intros df' s' beats' Hb Hl. rewrite Ha.
  rewrite (analyze_hrv_beats df' s' beats' Hb).
  symmetry. now apply hrv_of_beats_few.
Qed.

Lemma offset_beyond_end_witness :
  len five_beats <= 11 /\
  analyze_hrv five_beats 11 = Raise (ValueError not_enough_peaks).
Proof.
  assert (H : len five_beats <= 11) by (vm_compute; discriminate).
  split; [exact H|].
  exact (proj1 (proj2 (proj2 (proj2 (proj2 (offset_beyond_end five_beats 11 H)))))).
Defined.

(** C10: a negative start offset [s] with [|s| <= len(df)] is not
    rejected: the slices keep exactly the last [|s|] samples, and the run
    is the run at offset [len(df) - |s|]. *)
Theorem negative_offset (df : DataFrame) (s : Z) :
  s < 0 ->
  Z.abs s <= len df ->
  slice_from (col_time df) s =
    col_time (skipn (length df - Z.to_nat (Z.abs s)) df) /\
  slice_from (col_voltage df) s =
    col_voltage (skipn (length df - Z.to_nat (Z.abs s)) df) /\
  length (skipn (length df - Z.to_nat (Z.abs s)) df) = Z.to_nat (Z.abs s) /\
  analyze_hrv df s = analyze_hrv df (len df - Z.abs s) /\
  analyze_hrv df s =
    analyze_hrv (skipn (length df - Z.to_nat (Z.abs s)) df) 0.
Proof.
  intros Hs Hl.
  assert (Hk : forall (B : Type) (f : Sample -> B),
             slice_from (map f df) s =
             map f (skipn (length df - Z.to_nat (Z.abs s)) df)).
  { intros B f. rewrite slice_from_map. f_equal.
    rewrite slice_from_negative by lia.
    pose proof (len_nonneg df).
    rewrite slice_from_nonneg by lia. f_equal. unfold len. lia. }
  assert (Hz : forall (B : Type) (f : Sample -> B),
             slice_from (map f df) s = slice_from (map f df) (len df - Z.abs s)).
  { intros B f. rewrite slice_from_negative.
    - f_equal. unfold len. rewrite length_map. lia.
    - exact Hs.
    - unfold len in *. rewrite length_map. lia. }
  split; [apply Hk|]. split; [apply Hk|]. split.
  - rewrite length_skipn. unfold len in Hl. lia.
  - split.
    + unfold analyze_hrv, col_time, col_voltage. now rewrite !Hz.
    + unfold analyze_hrv. rewrite !slice_from_zero.
      unfold col_time, col_voltage. now rewrite !Hk.
Qed.

Lemma negative_offset_witness :
  analyze_hrv five_beats (-6) = analyze_hrv five_beats (len five_beats - 6).
Proof.
  assert (H1 : -6 < 0) by lia.
  assert (H2 : Z.abs (-6) <= len five_beats) by (vm_compute; discriminate).
  exact (proj1 (proj2 (proj2 (proj2 (negative_offset five_beats (-6) H1 H2))))).
Defined.

(** C8: with exactly two beat times RR has a single entry and
    [analyze_hrv] does not raise: it returns a metrics record whose MeanRR
    is that entry and whose SDNN and RMSSD are NaN (a sum of squares
    divided by N - 1 = 0, and the mean of an empty sequence). *)
Theorem two_beats_nan (df : DataFrame) (s : Z) (beats : list float) :
  beat_times df s = Ok beats ->
  length beats = 2%nat ->
  exists x m tbl,
    Np.diff beats = [x] /\
    analyze_hrv df s = Ok (m, tbl) /\
    Spec.same_value (MeanRR m) x /\
    SDNN m = nan /\
    RMSSD m = nan.
Proof.
  intros Hb Hl.
  destruct beats as [|t0 [|t1 [|t2 r]]]; try discriminate Hl.
  exists (PrimFloat.sub t1 t0).
  rewrite (analyze_hrv_beats df s _ Hb).
  rewrite hrv_of_beats_value by (cbn; lia).
  eexists. eexists. split; [reflexivity|]. split; [reflexivity|].
  cbn [MeanRR SDNN RMSSD].
  change (Np.diff [t0; t1]) with [PrimFloat.sub t1 t0].
  apply single_interval_stats.
Qed.

Lemma two_beats_nan_witness :
  exists x m tbl,
    Np.diff [3; 4]%float = [x] /\
    analyze_hrv five_beats 5 = Ok (m, tbl) /\
    Spec.same_value (MeanRR m) x /\
    SDNN m = nan /\
    RMSSD m = nan.
Proof.
  apply (two_beats_nan five_beats 5 [3; 4]%float);
    [vm_compute; reflexivity | reflexivity].
Defined.

(** * Further properties of the detector and the estimator *)

(** ** The order of binary64 values *)

Lemma SFcompare_swap (x y : spec_float) :
  SFcompare y x = option_map CompOpp (SFcompare x y).
Proof.
  destruct x as [sx|sx| |sx mx ex], y as [sy|sy| |sy my ey];
    try reflexivity;
    try (destruct sx; reflexivity); try (destruct sy; reflexivity);
    try (destruct sx, sy; reflexivity).
  cbn [SFcompare option_map].
  rewrite (Z.compare_antisym ex ey).
  pose proof (Pos.compare_cont_antisym mx my Eq) as H. cbn [CompOpp] in H.
  rewrite <- H.
  destruct sx, sy; try reflexivity;
    destruct (ex ?= ey); cbn [CompOpp]; reflexivity.
Qed.

Lemma flt_asym (a b : float) : flt a b = true -> flt b a = false.
Proof.
  unfold flt. rewrite !ltb_spec. unfold SFltb.
  rewrite (SFcompare_swap (Prim2SF a) (Prim2SF b)).
  destruct (SFcompare (Prim2SF a) (Prim2SF b)) as [[| |]|]; cbn; congruence.
Qed.

Lemma flt_irrefl (a : float) : flt a a = false.
Proof.
  destruct (flt a a) eqn:E; [|reflexivity].
  pose proof (flt_asym a a E). congruence.
Qed.

Lemma flt_nan_l (a : float) : flt nan a = false.
Proof. unfold flt. rewrite ltb_spec. reflexivity. Qed.

Lemma flt_nan_r (a : float) : flt a nan = false.
Proof.
  unfold flt. rewrite ltb_spec.
  change (Prim2SF nan) with S754_nan. unfold SFltb.
  now destruct (Prim2SF a).
Qed.
(** ** More on the peak detector *)

Lemma detect_peaks_In (v : list float) (peaks : list Z) (i : Z) :
  detect_peaks v = Ok peaks ->
  (In i peaks <-> 1 <= i < len v - 1 /\ peak_at v i = true).
Proof.
  rewrite detect_peaks_filter. intros [= <-].
  rewrite filter_In, in_range. tauto.
Qed.

Lemma detect_peaks_sorted (v : list float) (peaks : list Z) :
  detect_peaks v = Ok peaks -> StronglySorted Z.lt peaks.
Proof.
  rewrite detect_peaks_filter. intros [= <-].
  apply filter_sorted, range_sorted.
Qed.

Lemma peak_at_rises (v : list float) (i : Z) :
  peak_at v i = true -> flt (Spec.reading v (i - 1)) (Spec.reading v i) = true.
Proof. unfold peak_at. intros H. now apply andb_true_iff in H. Qed.

Lemma peak_at_falls (v : list float) (i : Z) :
  peak_at v i = true -> flt (Spec.reading v (i + 1)) (Spec.reading v i) = true.
Proof. unfold peak_at, fgt. intros H. now apply andb_true_iff in H. Qed.

Lemma peak_at_not_next (v : list float) (i : Z) :
  peak_at v i = true -> peak_at v (i + 1) = false.
Proof.
  intros H. apply peak_at_falls in H. apply flt_asym in H.
  unfold peak_at. replace (i + 1 - 1) with i by lia. now rewrite H.
Qed.

Lemma len_cons {A : Type} (x : A) (l : list A) : len (x :: l) = 1 + len l.
Proof. unfold len. cbn [length]. lia. Qed.

(** A strictly ascending list of integers of [lo, hi] without two
    consecutive values has at most about half as many members as the
    interval has points. *)
Lemma spaced_count (l : list Z) :
  StronglySorted Z.lt l ->
  forall lo hi,
  (forall i, In i l -> lo <= i <= hi) ->
  (forall i, In i l -> ~ In (i + 1) l) ->
  2 * len l <= Z.max 0 (hi - lo + 2).
Proof.
  induction 1 as [|x l Hs IH Hx]; intros lo hi Hin Hgap.
  - cbn. lia.
  - rewrite len_cons. rewrite Forall_forall in Hx.
    pose proof (Hin x (or_introl eq_refl)) as Hxr.
    assert (H2 : 2 * len l <= Z.max 0 (hi - (x + 2) + 2)).
    { apply IH.
      - intros i Hi. pose proof (Hx i Hi) as Hlt.
        pose proof (Hin i (or_intror Hi)) as Hir.
        assert (i <> x + 1).
        { intros ->. exact (Hgap x (or_introl eq_refl) (or_intror Hi)). }
        lia.
      - intros i Hi Hn. exact (Hgap i (or_intror Hi) (or_intror Hn)). }
    lia.
Qed.

(** X1: two detected peaks are never neighbours: distinct peak indices
    differ by at least 2. *)
Theorem peaks_never_adjacent (v : list float) (peaks : list Z) (i j : Z) :
  detect_peaks v = Ok peaks ->
  In i peaks -> In j peaks -> i <> j -> 2 <= Z.abs (j - i).
Proof.
  intros Hp Hi Hj Hne.
  apply (detect_peaks_In v peaks i Hp) in Hi.
  apply (detect_peaks_In v peaks j Hp) in Hj.
  destruct Hi as [_ Hi], Hj as [_ Hj].
  assert (Hij : j <> i + 1).
  { intros ->. apply peak_at_not_next in Hi. congruence. }
  assert (Hji : i <> j + 1).
  { intros ->. apply peak_at_not_next in Hj. congruence. }
  lia.
Qed.

Lemma peaks_never_adjacent_witness :
  detect_peaks [1; 3; 2; 5; 4; 5; 1]%float = Ok [1; 3; 5] /\
  2 <= Z.abs (3 - 1).
Proof.
  split; [reflexivity|].
  apply (peaks_never_adjacent [1; 3; 2; 5; 4; 5; 1]%float [1; 3; 5] 1 3);
    [reflexivity | cbn; auto | cbn; auto | discriminate].
Defined.

(** X2: a recording of N samples has at most (N - 1) / 2 peaks. *)
Theorem peaks_count_bound (v : list float) :
  exists peaks,
    detect_peaks v = Ok peaks /\ 2 * len peaks <= Z.max 0 (len v - 1).
Proof.
  exists (filter (peak_at v) (range 1 (len v - 1))).
  pose proof (detect_peaks_filter v) as Hp. split; [exact Hp|].
  replace (len v - 1) with (len v - 2 - 1 + 2) at 2 by lia.
  apply spaced_count.
  - exact (detect_peaks_sorted v _ Hp).
  - intros i Hi. apply (detect_peaks_In v _ i Hp) in Hi. lia.
  - intros i Hi Hn.
    apply (detect_peaks_In v _ i Hp) in Hi.
    apply (detect_peaks_In v _ (i + 1) Hp) in Hn.
    destruct Hi as [_ Hi], Hn as [_ Hn].
    apply peak_at_not_next in Hi. congruence.
Qed.

(** X3: a NaN reading is no peak and leaves neither neighbour a peak. *)
Theorem nan_reading_suppresses_peaks (v : list float) (peaks : list Z) (i : Z) :
  detect_peaks v = Ok peaks ->
  0 <= i < len v ->
  Spec.reading v i = nan ->
  ~ In (i - 1) peaks /\ ~ In i peaks /\ ~ In (i + 1) peaks.
Proof.
  intros Hp Hi Hn. repeat split; intros H.
  - apply (detect_peaks_In v peaks _ Hp) in H. destruct H as [_ H].
    apply peak_at_falls in H.
    replace (i - 1 + 1) with i in H by lia.
    rewrite Hn, flt_nan_l in H. discriminate.
  - apply (detect_peaks_In v peaks _ Hp) in H. destruct H as [_ H].
    apply peak_at_rises in H. rewrite Hn, flt_nan_r in H. discriminate.
  - apply (detect_peaks_In v peaks _ Hp) in H. destruct H as [_ H].
    apply peak_at_rises in H.
    replace (i + 1 - 1) with i in H by lia.
    rewrite Hn, flt_nan_l in H. discriminate.
Qed.

Lemma nan_reading_suppresses_peaks_witness :
  detect_peaks [1; 3; nan; 3; 1; 2; 1]%float = Ok [5] /\
  ~ In 1 [5] /\ ~ In 2 [5] /\ ~ In 3 [5].
Proof.
  split; [reflexivity|].
  apply (nan_reading_suppresses_peaks [1; 3; nan; 3; 1; 2; 1]%float [5] 2);
    [reflexivity | cbn; lia | reflexivity].
Defined.

Lemma filter_none {A : Type} (p : A -> bool) (l : list A) :
  (forall x, In x l -> p x = false) -> filter p l = [].
Proof.
  induction l as [|x l IH]; intros H; [reflexivity|]. cbn [filter].
  rewrite (H x (or_introl eq_refl)). apply IH. intros y Hy. apply H. now right.
Qed.

Lemma never_rising_no_peaks (v : list float) :
  (forall i, 0 <= i -> i + 1 < len v ->
             flt (Spec.reading v i) (Spec.reading v (i + 1)) = false) ->
  detect_peaks v = Ok [].
Proof.
  intros H. rewrite detect_peaks_filter. f_equal. apply filter_none.
  intros i Hi. apply in_range in Hi. unfold peak_at.
  specialize (H (i - 1)). replace (i - 1 + 1) with i in H by lia.
  now rewrite H by lia.
Qed.

Lemma never_falling_no_peaks (v : list float) :
  (forall i, 0 <= i -> i + 1 < len v ->
             fgt (Spec.reading v i) (Spec.reading v (i + 1)) = false) ->
  detect_peaks v = Ok [].
Proof.
  intros H. rewrite detect_peaks_filter. f_equal. apply filter_none.
  intros i Hi. apply in_range in Hi. unfold peak_at.
  rewrite (H i) by lia. apply andb_false_r.
Qed.

(** X4: a sequence that never rises from one reading to the next, or never
    falls, has no peak. *)
Theorem monotone_has_no_peaks (v : list float) :
  (forall i, 0 <= i -> i + 1 < len v ->
             flt (Spec.reading v i) (Spec.reading v (i + 1)) = false) \/
  (forall i, 0 <= i -> i + 1 < len v ->
             fgt (Spec.reading v i) (Spec.reading v (i + 1)) = false) ->
  detect_peaks v = Ok [].
Proof.
  intros [H|H]; [now apply never_rising_no_peaks|now apply never_falling_no_peaks].
Qed.

Lemma monotone_has_no_peaks_witness :
  detect_peaks [3; 2; 2; 1]%float = Ok [].
Proof.
  apply (monotone_has_no_peaks [3; 2; 2; 1]%float). left.
  intros i H0 H1. cbn in H1.
  assert (E : i = 0 \/ i = 1 \/ i = 2) by lia.
  destruct E as [->|[->| ->]]; reflexivity.
Defined.

Lemma reading_skipn (v : list float) (k : nat) (i : Z) :
  0 <= i -> Spec.reading (skipn k v) i = Spec.reading v (i + Z.of_nat k).
Proof.
  intros Hi. unfold Spec.reading. rewrite nth_skipn. f_equal. lia.
Qed.

Lemma len_skipn {A : Type} (k : nat) (a : list A) :
  len (skipn k a) = Z.max 0 (len a - Z.of_nat k).
Proof. unfold len. rewrite length_skipn. lia. Qed.

Lemma slice_from_skipn {A : Type} (a : list A) (s : Z) :
  exists k, slice_from a s = skipn k a.
Proof. unfold slice_from. eexists. reflexivity. Qed.

(** X5: a recording whose voltage never rises from one sample to the next,
    or never falls (a flat line among them), is rejected with the
    insufficient-data failure at every start offset. *)
Theorem monotone_recording_rejected (df : DataFrame) (s : Z) :
  (forall i, 0 <= i -> i + 1 < len df ->
     flt (Spec.reading (col_voltage df) i)
         (Spec.reading (col_voltage df) (i + 1)) = false) \/
  (forall i, 0 <= i -> i + 1 < len df ->
     fgt (Spec.reading (col_voltage df) i)
         (Spec.reading (col_voltage df) (i + 1)) = false) ->
  analyze_hrv df s = Raise (ValueError "Not enough R-peaks to compute HRV.").
Proof.
  intros H.
  assert (Hp : detect_peaks (slice_from (col_voltage df) s) = Ok []).
  { destruct (slice_from_skipn (col_voltage df) s) as [k ->].
    assert (Hl : forall i, 0 <= i -> i + 1 < len (skipn k (col_voltage df)) ->
                 0 <= i + Z.of_nat k /\ i + Z.of_nat k + 1 < len df).
    { intros i H0 H1. rewrite len_skipn in H1.
      unfold col_voltage, len in *. rewrite length_map in H1. lia. }
    destruct H as [H|H].
    - apply never_rising_no_peaks. intros i H0 H1.
      rewrite !reading_skipn by lia.
      replace (i + 1 + Z.of_nat k) with (i + Z.of_nat k + 1) by lia.
      apply H; now apply Hl.
    - apply never_falling_no_peaks. intros i H0 H1.
      rewrite !reading_skipn by lia.
      replace (i + 1 + Z.of_nat k) with (i + Z.of_nat k + 1) by lia.
      apply H; now apply Hl. }
  unfold analyze_hrv. rewrite Hp. reflexivity.
Qed.

Lemma monotone_recording_rejected_witness :
  analyze_hrv [ {| time_s := 0; voltage_mV := 2 |};
                {| time_s := 1; voltage_mV := 2 |};
                {| time_s := 2; voltage_mV := 2 |};
                {| time_s := 3; voltage_mV := 2 |} ]%float 1 =
  Raise (ValueError "Not enough R-peaks to compute HRV.").
Proof.
  apply monotone_recording_rejected. left.
  intros i H0 H1. cbn in H1.
  assert (E : i = 0 \/ i = 1 \/ i = 2) by lia.
  destruct E as [->|[->| ->]]; reflexivity.
Defined.

(** X6: whatever the recording and the offset, [analyze_hrv] has two
    outcomes only: with at least two peaks in the truncated voltage it
    returns a result, and otherwise it raises the insufficient-data
    [ValueError]; no [IndexError] escapes it. *)
Theorem analyze_hrv_outcomes (df : DataFrame) (s : Z) :
  exists peaks,
    detect_peaks (slice_from (col_voltage df) s) = Ok peaks /\
    (2 <= len peaks /\ (exists m tbl, analyze_hrv df s = Ok (m, tbl)) \/
     len peaks < 2 /\
     analyze_hrv df s = Raise (ValueError "Not enough R-peaks to compute HRV.")).
Proof.
  eexists. split; [apply detect_peaks_filter|].
  rewrite (analyze_hrv_beats df s _ (beat_times_value df s)).
  set (peaks := filter _ _).
  destruct (Z.lt_ge_cases (len peaks) 2) as [Hl|Hl].
  - right. split; [exact Hl|]. apply hrv_of_beats_few.
    rewrite length_map. unfold len in Hl. lia.
  - left. split; [lia|]. eexists. eexists. apply hrv_of_beats_value.
    rewrite length_map. unfold len in Hl. lia.
Qed.

Lemma slice_from_below {A : Type} (a : list A) (s : Z) :
  s <= - len a -> slice_from a s = a.
Proof.
  intros Hs. pose proof (len_nonneg a). unfold slice_from.
  destruct (s <? 0) eqn:E.
  - now replace (Z.to_nat (Z.max (s + len a) 0)) with 0%nat by lia.
  - apply Z.ltb_ge in E.
    now replace (Z.to_nat (Z.min s (len a))) with 0%nat by lia.
Qed.

(** X9: start offsets add up: slicing [a] samples off a recording and then
    analysing from offset [b] is analysing the recording from [a + b]. *)
Theorem offsets_compose (df : DataFrame) (a b : Z) :
  0 <= a -> 0 <= b ->
  analyze_hrv (skipn (Z.to_nat a) df) b = analyze_hrv df (a + b).
Proof.
  intros Ha Hb.
  assert (H : forall (B : Type) (f : Sample -> B),
            slice_from (map f (skipn (Z.to_nat a) df)) b =
            slice_from (map f df) (a + b)).
  { intros B f. rewrite !slice_from_nonneg by lia.
    rewrite <- skipn_map, skipn_skipn. f_equal. lia. }
  unfold analyze_hrv, col_time, col_voltage. now rewrite !H.
Qed.

Lemma offsets_compose_witness :
  analyze_hrv (skipn 2 five_beats) 2 = analyze_hrv five_beats 4.
Proof.
  apply (offsets_compose five_beats 2 2); lia.
Defined.

(** X10: an offset at or below [-len(df)] is clipped to the start: the
    whole recording is analysed. *)
Theorem offset_below_start (df : DataFrame) (s : Z) :
  s <= - len df -> analyze_hrv df s = analyze_hrv df 0.
Proof.
  intros Hs.
  assert (H : forall (B : Type) (f : Sample -> B),
            slice_from (map f df) s = slice_from (map f df) 0).
  { intros B f. rewrite slice_from_zero. apply slice_from_below.
    unfold len in *. now rewrite length_map. }
  unfold analyze_hrv, col_time, col_voltage. now rewrite !H.
Qed.

Lemma offset_below_start_witness :
  analyze_hrv five_beats (-20) = analyze_hrv five_beats 0.
Proof.
  apply (offset_below_start five_beats (-20)). vm_compute. discriminate.
Defined.

(** ** The interval table and the peaks *)

Lemma analyze_hrv_ok (df : DataFrame) (s : Z) (m : HrvMetrics) (tbl : list RRRow) :
  analyze_hrv df s = Ok (m, tbl) ->
  exists beats,
    beat_times df s = Ok beats /\ (2 <= length beats)%nat /\
    tbl = rr_table_of beats.
Proof.
  pose proof (beat_times_value df s) as Hb. revert Hb.
  set (beats := map _ _). intros Hb H.
  rewrite (analyze_hrv_beats df s beats Hb) in H.
  exists beats. split; [exact Hb|].
  destruct (Nat.lt_ge_cases (length beats) 2) as [Hl|Hl].
  - rewrite (hrv_of_beats_few beats Hl) in H. discriminate.
  - rewrite (hrv_of_beats_value beats Hl) in H. split; [exact Hl|].
    now injection H as _ <-.
Qed.

Lemma reading_cons (x : float) (l : list float) (k : nat) :
  Spec.reading (x :: l) (Z.of_nat (S k)) = Spec.reading l (Z.of_nat k).
Proof. unfold Spec.reading. now rewrite !Nat2Z.id. Qed.

Lemma rr_table_cons2 (x y : float) (t : list float) :
  rr_table_of (x :: y :: t) =
  {| timestamp := x; rr := PrimFloat.sub y x |} :: rr_table_of (y :: t).
Proof.
  unfold rr_table_of. rewrite diff_cons2. unfold len. cbn [length].
  rewrite !range_from_zero. cbn [seq map]. f_equal.
  rewrite <- seq_shift, !map_map. apply map_ext. intros k.
  now rewrite !reading_cons.
Qed.

Lemma rr_table_skipn (n : nat) (beats : list float) :
  rr_table_of (skipn n beats) = skipn n (rr_table_of beats).
Proof.
  revert beats. induction n as [|n IH]; intros beats; [reflexivity|].
  destruct beats as [|x [|y t]].
  - reflexivity.
  - cbn [skipn]. now rewrite skipn_nil.
  - rewrite rr_table_cons2. cbn [skipn]. apply IH.
Qed.

Lemma rr_table_timestamps (beats : list float) :
  map timestamp (rr_table_of beats) = removelast beats.
Proof.
  induction beats as [|x [|y t] IH]; [reflexivity|reflexivity|].
  rewrite rr_table_cons2. cbn [map timestamp]. rewrite IH. reflexivity.
Qed.

Lemma removelast_map_comm {A B : Type} (f : A -> B) (l : list A) :
  removelast (map f l) = map f (removelast l).
Proof.
  induction l as [|x [|y t] IH]; [reflexivity|reflexivity|].
  cbn [map removelast] in *. now rewrite IH.
Qed.

(** X7: the rows of the interval table chain: the interval of a row is
    the timestamp of the next row minus its own timestamp. *)
Theorem table_rows_chain (df : DataFrame) (s : Z) (m : HrvMetrics)
        (tbl : list RRRow) (i : nat) (r1 r2 : RRRow) :
  analyze_hrv df s = Ok (m, tbl) ->
  nth_error tbl i = Some r1 ->
  nth_error tbl (S i) = Some r2 ->
  rr r1 = PrimFloat.sub (timestamp r2) (timestamp r1).
Proof.
  intros H H1 H2. apply analyze_hrv_ok in H.
  destruct H as [beats [_ [_ ->]]]. unfold rr_table_of in *.
  assert (Hi : (S i < length beats - 1)%nat).
  { rewrite <- (table_length beats). apply nth_error_Some. congruence. }
  rewrite (table_nth_error beats i) in H1 by lia.
  rewrite (table_nth_error beats (S i) Hi) in H2.
  injection H1 as <-. injection H2 as <-. cbn [rr timestamp].
  unfold Spec.at_ at 1. apply rr_intervals_nth. lia.
Qed.

Lemma table_rows_chain_witness :
  exists m tbl r1 r2,
    analyze_hrv five_beats 0 = Ok (m, tbl) /\
    nth_error tbl 1 = Some r1 /\ nth_error tbl 2 = Some r2 /\
    rr r1 = PrimFloat.sub (timestamp r2) (timestamp r1).
Proof.
  eexists. eexists. eexists. eexists.
  assert (H : analyze_hrv five_beats 0 =
    Ok ({| MeanRR := 1; SDNN := 0; RMSSD := 0 |},
        [ {| timestamp := 0; rr := 1 |}; {| timestamp := 1; rr := 1 |};
          {| timestamp := 2; rr := 1 |}; {| timestamp := 3; rr := 1 |} ])%float)
    by (vm_compute; reflexivity).
  split; [exact H|]. split; [reflexivity|]. split; [reflexivity|].
  exact (table_rows_chain five_beats 0 _ _ 1 _ _ H eq_refl eq_refl).
Defined.

(** X8: the timestamps of the interval table are the times of the samples
    at the detected peaks of the truncated recording, in order, the last
    peak left out. *)
Theorem table_timestamps (df : DataFrame) (s : Z) (m : HrvMetrics)
        (tbl : list RRRow) :
  analyze_hrv df s = Ok (m, tbl) ->
  exists peaks,
    detect_peaks (slice_from (col_voltage df) s) = Ok peaks /\
    map timestamp tbl =
    map (Spec.reading (slice_from (col_time df) s)) (removelast peaks).
Proof.
  intros H. apply analyze_hrv_ok in H. destruct H as [beats [Hb [_ ->]]].
  eexists. split; [apply detect_peaks_filter|].
  rewrite beat_times_value in Hb. injection Hb as <-.
  now rewrite rr_table_timestamps, removelast_map_comm.
Qed.

Lemma table_timestamps_witness :
  exists m tbl peaks,
    analyze_hrv five_beats 0 = Ok (m, tbl) /\
    detect_peaks (slice_from (col_voltage five_beats) 0) = Ok peaks /\
    map timestamp tbl =
    map (Spec.reading (slice_from (col_time five_beats) 0)) (removelast peaks).
Proof.
  assert (H : analyze_hrv five_beats 0 =
    Ok ({| MeanRR := 1; SDNN := 0; RMSSD := 0 |},
        [ {| timestamp := 0; rr := 1 |}; {| timestamp := 1; rr := 1 |};
          {| timestamp := 2; rr := 1 |}; {| timestamp := 3; rr := 1 |} ])%float)
    by (vm_compute; reflexivity).
  destruct (table_timestamps five_beats 0 _ _ H) as [peaks [Hp Ht]].
  eexists. eexists. exists peaks. split; [exact H|]. split; [exact Hp|exact Ht].
Defined.

(** ** Peaks of a part of the recording *)

(** Two strictly ascending lists with the same members are equal. *)
Lemma sorted_ext (l1 l2 : list Z) :
  StronglySorted Z.lt l1 -> StronglySorted Z.lt l2 ->
  (forall i, In i l1 <-> In i l2) -> l1 = l2.
Proof.
  intros H1. revert l2.
  induction H1 as [|x l1 Hs1 IH Hx]; intros l2 H2 Hm.
  - destruct l2 as [|y l2]; [reflexivity|].
    destruct (proj2 (Hm y) (or_introl eq_refl)).
  - destruct H2 as [|y l2 Hs2 Hy].
    + destruct (proj1 (Hm x) (or_introl eq_refl)).
    + rewrite Forall_forall in Hx, Hy.
      assert (E : x = y).
      { destruct (proj1 (Hm x) (or_introl eq_refl)) as [E|Hin]; [now symmetry|].
        destruct (proj2 (Hm y) (or_introl eq_refl)) as [E|Hin']; [exact E|].
        pose proof (Hy x Hin). pose proof (Hx y Hin'). lia. }
      subst y. f_equal. apply IH; [exact Hs2|].
      intros i. split; intros Hi.
      * destruct (proj1 (Hm i) (or_intror Hi)) as [E|Hin]; [|exact Hin].
        pose proof (Hx i Hi). lia.
      * destruct (proj2 (Hm i) (or_intror Hi)) as [E|Hin]; [|exact Hin].
        pose proof (Hy i Hi). lia.
Qed.

Lemma map_shift_sorted (s : Z) (l : list Z) :
  StronglySorted Z.lt l -> StronglySorted Z.lt (map (fun i => i - s) l).
Proof.
  induction 1 as [|x l Hs IH Hx]; cbn [map]; constructor; [exact IH|].
  rewrite Forall_forall in *. intros y Hy. apply in_map_iff in Hy.
  destruct Hy as [i [<- Hi]]. pose proof (Hx i Hi). lia.
Qed.

Lemma peak_at_skipn (v : list float) (k : nat) (j : Z) :
  1 <= j -> peak_at (skipn k v) j = peak_at v (j + Z.of_nat k).
Proof.
  intros Hj. unfold peak_at. rewrite !reading_skipn by lia.
  replace (j - 1 + Z.of_nat k) with (j + Z.of_nat k - 1) by lia.
  replace (j + 1 + Z.of_nat k) with (j + Z.of_nat k + 1) by lia.
  reflexivity.
Qed.

Lemma reading_app (v w : list float) (j : Z) :
  0 <= j < len v -> Spec.reading (v ++ w) j = Spec.reading v j.
Proof.
  intros Hj. unfold Spec.reading. apply app_nth1. unfold len in Hj. lia.
Qed.

(** The peaks of the recording from sample [s] on. *)
Lemma peaks_after_offset_eq (v : list float) (s : Z) :
  0 <= s ->
  filter (peak_at (slice_from v s)) (range 1 (len (slice_from v s) - 1)) =
  map (fun i => i - s)
      (filter (fun i => s <? i) (filter (peak_at v) (range 1 (len v - 1)))).
Proof.
  intros Hs. rewrite slice_from_nonneg by exact Hs.
  apply sorted_ext.
  - apply filter_sorted, range_sorted.
  - apply map_shift_sorted. do 2 apply filter_sorted. apply range_sorted.
  - intros j. rewrite filter_In, in_range, in_map_iff, len_skipn.
    split.
    + intros [Hj Hp]. exists (j + s). split; [lia|].
      rewrite !filter_In, in_range.
      rewrite peak_at_skipn in Hp by lia.
      rewrite Z2Nat.id in Hp by lia.
      repeat split; try lia; try exact Hp; apply Z.ltb_lt; lia.
    + intros [i [<- Hi]]. rewrite !filter_In, in_range in Hi.
      destruct Hi as [[Hr Hp] Hlt]. apply Z.ltb_lt in Hlt.
      split; [lia|]. rewrite peak_at_skipn by lia.
      rewrite Z2Nat.id by lia. now replace (i - s + s) with i by lia.
Qed.

(** X11: the peaks of the recording from sample [s] on are the peaks of
    the whole recording that lie after sample [s], renumbered from the
    new start; a peak at sample [s] itself is lost. *)
Theorem peaks_after_offset (v : list float) (s : Z) :
  0 <= s ->
  exists p0 ps,
    detect_peaks v = Ok p0 /\
    detect_peaks (slice_from v s) = Ok ps /\
    ps = map (fun i => i - s) (filter (fun i => s <? i) p0).
Proof.
  intros Hs. eexists. eexists.
  split; [apply detect_peaks_filter|].
  split; [apply detect_peaks_filter|].
  now apply peaks_after_offset_eq.
Qed.

Lemma peaks_after_offset_witness :
  exists p0 ps,
    detect_peaks [1; 3; 2; 5; 4; 5; 1]%float = Ok p0 /\
    detect_peaks (slice_from [1; 3; 2; 5; 4; 5; 1]%float 3) = Ok ps /\
    ps = map (fun i => i - 3) (filter (fun i => 3 <? i) p0).
Proof.
  apply (peaks_after_offset [1; 3; 2; 5; 4; 5; 1]%float 3). lia.
Defined.

(** X12: the peaks of a recording do not change when more samples follow:
    the peaks of [v] are the peaks of [v ++ w] below the last index of
    [v]. *)
Theorem peaks_of_prefix (v w : list float) :
  exists pv pvw,
    detect_peaks v = Ok pv /\
    detect_peaks (v ++ w) = Ok pvw /\
    pv = filter (fun i => i <? len v - 1) pvw.
Proof.
  eexists. eexists.
  split; [apply detect_peaks_filter|].
  split; [apply detect_peaks_filter|].
  apply sorted_ext.
  - apply filter_sorted, range_sorted.
  - do 2 apply filter_sorted. apply range_sorted.
  - intros i. rewrite !filter_In, !in_range.
    assert (Hl : len (v ++ w) = len v + len w)
      by (unfold len; rewrite length_app; lia).
    pose proof (len_nonneg w).
    assert (Hp : 1 <= i < len v - 1 -> peak_at (v ++ w) i = peak_at v i).
    { intros Hi. unfold peak_at. now rewrite !reading_app by lia. }
    split.
    + intros [Hi H1]. rewrite Hp by exact Hi.
      repeat split; try lia; try exact H1; apply Z.ltb_lt; lia.
    + intros [[Hi H1] Hlt]. apply Z.ltb_lt in Hlt.
      rewrite Hp in H1 by lia. split; [lia|exact H1].
Qed.

(** Above a threshold, a strictly ascending list keeps a suffix. *)
Lemma filter_above_sorted (s : Z) (l : list Z) :
  StronglySorted Z.lt l ->
  filter (fun i => s <? i) l =
  skipn (length (filter (fun i => i <=? s) l)) l.
Proof.
  induction 1 as [|x l Hs IH Hx]; [reflexivity|]. cbn [filter].
  destruct (Z.leb_spec x s) as [Hle|Hgt].
  - replace (s <? x) with false by (symmetry; apply Z.ltb_ge; lia).
    cbn [length skipn]. exact IH.
  - replace (s <? x) with true by (symmetry; apply Z.ltb_lt; lia).
    rewrite Forall_forall in Hx.
    assert (Hk : filter (fun i => s <? i) l = l).
    { clear IH Hs. induction l as [|y l IHl]; [reflexivity|]. cbn [filter].
      pose proof (Hx y (or_introl eq_refl)).
      replace (s <? y) with true by (symmetry; apply Z.ltb_lt; lia).
      f_equal. apply IHl. intros z Hz. apply Hx. now right. }
    assert (Hn : filter (fun i => i <=? s) l = []).
    { apply filter_none. intros y Hy. pose proof (Hx y Hy).
      apply Z.leb_gt. lia. }
    now rewrite Hk, Hn.
Qed.

(** The beat times from sample [s] on are a suffix of the beat times of
    the whole recording. *)
Lemma beat_times_suffix (df : DataFrame) (s : Z) :
  0 <= s ->
  exists beats0,
    beat_times df 0 = Ok beats0 /\
    beat_times df s =
    Ok (skipn (length (filter (fun i => i <=? s)
                 (filter (peak_at (col_voltage df))
                         (range 1 (len (col_voltage df) - 1)))))
              beats0).
Proof.
  intros Hs. eexists. split; [apply beat_times_value|].
  rewrite beat_times_value, !slice_from_zero. f_equal.
  rewrite peaks_after_offset_eq by exact Hs.
  rewrite skipn_map, map_map.
  rewrite <- filter_above_sorted by apply filter_sorted, range_sorted.
  apply map_ext_in. intros i Hi. apply filter_In in Hi.
  destruct Hi as [_ Hi]. apply Z.ltb_lt in Hi.
  rewrite slice_from_nonneg by exact Hs.
  rewrite reading_skipn by lia. f_equal. lia.
Qed.

(** X13: the interval table of an analysis from offset [s] is a suffix of
    the table of the whole recording: the rows of the beats at sample
    indices up to [s] are dropped and the other rows are unchanged. *)
Theorem offset_table_is_suffix (df : DataFrame) (s : Z) (m : HrvMetrics)
        (tbl : list RRRow) :
  0 <= s ->
  analyze_hrv df s = Ok (m, tbl) ->
  exists peaks m0 tbl0,
    detect_peaks (col_voltage df) = Ok peaks /\
    analyze_hrv df 0 = Ok (m0, tbl0) /\
    tbl = skipn (length (filter (fun i => i <=? s) peaks)) tbl0.
Proof.
  intros Hs H. apply analyze_hrv_ok in H. destruct H as [beats [Hb [Hl ->]]].
  destruct (beat_times_suffix df s Hs) as [beats0 [H0 Hs']].
  rewrite Hs' in Hb. injection Hb as <-.
  eexists. eexists. eexists. split; [apply detect_peaks_filter|].
  rewrite (analyze_hrv_beats df 0 beats0 H0).
  rewrite hrv_of_beats_value by (rewrite length_skipn in Hl; lia).
  split; [reflexivity|]. apply (rr_table_skipn _ beats0).
Qed.

Lemma offset_table_is_suffix_witness :
  exists m tbl peaks m0 tbl0,
    analyze_hrv five_beats 4 = Ok (m, tbl) /\
    detect_peaks (col_voltage five_beats) = Ok peaks /\
    analyze_hrv five_beats 0 = Ok (m0, tbl0) /\
    tbl = skipn (length (filter (fun i => i <=? 4) peaks)) tbl0.
Proof.
  assert (H : analyze_hrv five_beats 4 =
    Ok ({| MeanRR := 1; SDNN := 0; RMSSD := 0 |},
        [ {| timestamp := 2; rr := 1 |}; {| timestamp := 3; rr := 1 |} ])%float)
    by (vm_compute; reflexivity).
  assert (Hs : 0 <= 4) by lia.
  destruct (offset_table_is_suffix five_beats 4 _ _ Hs H)
    as [peaks [m0 [tbl0 [Hp [H0 Ht]]]]].
  eexists. eexists. exists peaks, m0, tbl0.
  split; [exact H|]. split; [exact Hp|]. split; [exact H0|exact Ht].
Defined.

(** ** The sign of the statistics *)

Lemma round_not_negative (m e : Z) (l : location) :
  SFltb (binary_round_aux prec emax false m e l) (S754_zero false) = false.
Proof.
  unfold binary_round_aux.
  destruct (shr_fexp prec emax m e l) as [mrs1 e1].
  destruct (shr_fexp prec emax _ e1 loc_Exact) as [mrs2 e2].
  destruct (shr_m mrs2); [reflexivity| |reflexivity].
  now destruct (e2 <=? emax - prec).
Qed.

(** A square root is never below zero (it can be NaN). *)
Lemma sqrt_not_negative (y : float) : flt (PrimFloat.sqrt y) 0 = false.
Proof.
  unfold flt. rewrite ltb_spec, sqrt_spec.
  change (Prim2SF 0%float) with (S754_zero false).
  unfold SF64sqrt, SFsqrt.
  destruct (Prim2SF y) as [s|[|]| |[|] m e]; try reflexivity.
  destruct (SFsqrt_core_binary prec emax (Z.pos m) e) as [[mz ez] lz].
  apply round_not_negative.
Qed.

(** X14: the SDNN and the RMSSD of a result are never negative: each is
    zero, positive or NaN. *)
Theorem deviations_not_negative (df : DataFrame) (s : Z) (m : HrvMetrics)
        (tbl : list RRRow) :
  analyze_hrv df s = Ok (m, tbl) ->
  flt (SDNN m) 0 = false /\ flt (RMSSD m) 0 = false.
Proof.
  intros H. pose proof (beat_times_value df s) as Hb. revert Hb.
  set (beats := map _ _). intros Hb.
  rewrite (analyze_hrv_beats df s beats Hb) in H.
  destruct (Nat.lt_ge_cases (length beats) 2) as [Hl|Hl].
  - rewrite (hrv_of_beats_few beats Hl) in H. discriminate.
  - rewrite (hrv_of_beats_value beats Hl) in H. injection H as <- _.
    cbn [SDNN RMSSD]. split; apply sqrt_not_negative.
Qed.

Lemma deviations_not_negative_witness :
  exists m tbl,
    analyze_hrv five_beats 5 = Ok (m, tbl) /\
    SDNN m = nan /\
    flt (SDNN m) 0 = false /\ flt (RMSSD m) 0 = false.
Proof.
  assert (H : analyze_hrv five_beats 5 =
    Ok ({| MeanRR := 1; SDNN := nan; RMSSD := nan |},
        [ {| timestamp := 3; rr := 1 |} ])%float)
    by (vm_compute; reflexivity).
  eexists. eexists. split; [exact H|]. split; [reflexivity|].
  exact (deviations_not_negative five_beats 5 _ _ H).
Defined.

(** ** What the analysis reads *)

(** X15: of the time column the analysis reads the samples at the detected
    peaks only: two recordings with the same truncated voltages whose
    times agree at those peaks have the same result. *)
Theorem only_peak_times_matter (df df' : DataFrame) (s : Z) (peaks : list Z) :
  slice_from (col_voltage df') s = slice_from (col_voltage df) s ->
  detect_peaks (slice_from (col_voltage df) s) = Ok peaks ->
  (forall i, In i peaks ->
     Spec.reading (slice_from (col_time df') s) i =
     Spec.reading (slice_from (col_time df) s) i) ->
  analyze_hrv df' s = analyze_hrv df s.
Proof.
  intros Hv Hp Ht.
  rewrite (analyze_hrv_beats df s _ (beat_times_value df s)).
  rewrite (analyze_hrv_beats df' s _ (beat_times_value df' s)).
  rewrite Hv. rewrite detect_peaks_filter in Hp. injection Hp as Hp.
  rewrite Hp. f_equal. apply map_ext_in. exact Ht.
Qed.

Lemma only_peak_times_matter_witness :
  analyze_hrv
    [ {| time_s := 10; voltage_mV := 0 |}; {| time_s := 0; voltage_mV := 1 |};
      {| time_s := 20; voltage_mV := 0 |}; {| time_s := 1; voltage_mV := 1 |};
      {| time_s := 30; voltage_mV := 0 |} ]%float 0 =
  analyze_hrv
    [ {| time_s := -1; voltage_mV := 0 |}; {| time_s := 0; voltage_mV := 1 |};
      {| time_s := 0.5; voltage_mV := 0 |}; {| time_s := 1; voltage_mV := 1 |};
      {| time_s := 1.5; voltage_mV := 0 |} ]%float 0.
Proof.
  apply (only_peak_times_matter _ _ 0 [1; 3]);
    [reflexivity | reflexivity |].
  intros i [<-|[<-|[]]]; reflexivity.
Defined.
